(** * TOON serialization of Pydantic models: a shallow embedding

    This development embeds [ToonSerializer] of [Toon/pydantic_toon.py]
    and states its behaviour as theorems.

    Conventions.
    - A Python [str] is a Rocq [string]; every character is a code point
      below 256.
    - The runtime type tests of [_serialize_value] ([isinstance] in a fixed
      order) become a match on the constructors of [value].
    - [str(x)] of a float, a [Decimal], a temporal value or an object of an
      unknown class is supplied by the host and carried by the constructor.
    - The three serializers call one another, and the tabular one recurses
      through [model_dump()], whose result is no sub-term of its argument:
      they are defined by recursion on a call budget ([fuel]) and then shown
      total, with the equations of the source as lemmas. *)

From Stdlib Require Import ZArith List String Ascii Bool Arith Lia DecimalString.
Import ListNotations.

Local Open Scope list_scope.
Local Open Scope string_scope.

(** ** Characters and strings of the Python runtime *)

Module PyStr.

Definition nl_char : ascii := "010"%char.
Definition dquote_char : ascii := "034"%char.
Definition backslash_char : ascii := "092"%char.
Definition comma_char : ascii := ","%char.
Definition space_char : ascii := " "%char.

Definition nl : string := String nl_char EmptyString.
Definition dquote : string := String dquote_char EmptyString.
Definition backslash : string := String backslash_char EmptyString.

(** [c in s] for a one-character [c]. *)
Fixpoint contains (c : ascii) (s : string) : bool :=
  match s with
  | EmptyString => false
  | String a s' => Ascii.eqb a c || contains c s'
  end.

(** [s.replace(old, new)] for a one-character [old]. *)
Fixpoint replace (old : ascii) (new : string) (s : string) : string :=
  match s with
  | EmptyString => EmptyString
  | String a s' =>
      if Ascii.eqb a old then new ++ replace old new s'
      else String a (replace old new s')
  end.

(** [str.isspace] on the code points below 256: TAB, LF, VT, FF, CR,
    FS, GS, RS, US, SPACE, NEL and NBSP. *)
Definition is_space (c : ascii) : bool :=
  let n := nat_of_ascii c in
  (Nat.leb 9 n && Nat.leb n 13) || (Nat.leb 28 n && Nat.leb n 32)
  || Nat.eqb n 133 || Nat.eqb n 160.

Fixpoint lstrip (s : string) : string :=
  match s with
  | EmptyString => EmptyString
  | String a s' => if is_space a then lstrip s' else s
  end.

Fixpoint rstrip (s : string) : string :=
  match s with
  | EmptyString => EmptyString
  | String a s' =>
      match rstrip s' with
      | EmptyString => if is_space a then EmptyString else String a EmptyString
      | r => String a r
      end
  end.

(** [s.strip()] *)
Definition strip (s : string) : string := rstrip (lstrip s).

(** [s * n] *)
Fixpoint repeat (s : string) (n : nat) : string :=
  match n with
  | O => EmptyString
  | S n' => s ++ repeat s n'
  end.

(** [sep.join(ls)] *)
Definition join (sep : string) (ls : list string) : string :=
  String.concat sep ls.

(** [str(n)] for an [int]. *)
Definition str_int (n : Z) : string := NilZero.string_of_int (Z.to_int n).

(** [str(len(l))] *)
Definition str_len {A} (l : list A) : string := str_int (Z.of_nat (List.length l)).

(** [s.split("\n")]: the physical lines of a text. *)
Fixpoint lines_aux (cur : string) (s : string) : list string :=
  match s with
  | EmptyString => [cur]
  | String a s' =>
      if Ascii.eqb a nl_char then cur :: lines_aux EmptyString s'
      else lines_aux (cur ++ String a EmptyString) s'
  end.

Definition lines (s : string) : list string := lines_aux EmptyString s.


(** Number of occurrences of a character. *)
Fixpoint count (c : ascii) (s : string) : nat :=
  match s with
  | EmptyString => 0
  | String a s' => (if Ascii.eqb a c then 1 else 0) + count c s'
  end.

End PyStr.

(** ** Values handed to the serializer *)

(** The runtime values [_serialize_value] distinguishes, in the order of its
    [isinstance] tests.  A [BaseModel] instance is its fields in declared
    order ([model_fields]) with their attribute values; a [dict] is its items
    in insertion order, keys already in their [str] form. *)
#[warnings="-register-all"] Inductive value : Type :=
| VNone
| VBool (b : bool)
| VInt (n : Z)
| VFloat (repr : string)
| VDecimal (repr : string)
| VDateTime (isoformat : string)
| VDate (isoformat : string)
| VStr (s : string)
| VModel (fields : list (string * value))
| VList (items : list value)
| VDict (items : list (string * value))
| VOther (type_repr : string) (repr : string).

Definition model : Type := list (string * value).

Definition is_model (v : value) : bool :=
  match v with
  | VModel _ => true
  | _ => false
  end.


(** The elements of a list narrowed to models, as after
    [all(isinstance(item, BaseModel) for item in data)]. *)
Fixpoint models_of (data : list value) : list model :=
  match data with
  | [] => []
  | VModel obj :: rest => obj :: models_of rest
  | _ :: rest => models_of rest
  end.

(** Pydantic's [model_dump()] in Python mode on a field value: nested models
    become dicts, lists and dicts are dumped element by element, leaves are
    kept. *)
Fixpoint dump_value (v : value) : value :=
  match v with
  | VModel fields => VDict (map (fun kv => (fst kv, dump_value (snd kv))) fields)
  | VList items => VList (map dump_value items)
  | VDict items => VDict (map (fun kv => (fst kv, dump_value (snd kv))) items)
  | _ => v
  end.

(** [obj.model_dump()]: a dict from field name to dumped value. *)
Definition model_dump (obj : model) : list (string * value) :=
  map (fun kv => (fst kv, dump_value (snd kv))) obj.

(** [list(d.keys())] *)
Definition keys (d : list (string * value)) : list string := map fst d.

(** [d.get(key)]: [None] when the key is absent. *)
Fixpoint dict_get (d : list (string * value)) (key : string) : value :=
  match d with
  | [] => VNone
  | (k, v) :: rest => if String.eqb k key then v else dict_get rest key
  end.

(** [key in d] *)
Definition has_key (d : list (string * value)) (key : string) : bool :=
  existsb (String.eqb key) (keys d).

(** [str(type(data))] *)
Definition type_str (v : value) : string :=
  match v with
  | VNone => "<class 'NoneType'>"
  | VBool _ => "<class 'bool'>"
  | VInt _ => "<class 'int'>"
  | VFloat _ => "<class 'float'>"
  | VDecimal _ => "<class 'decimal.Decimal'>"
  | VDateTime _ => "<class 'datetime.datetime'>"
  | VDate _ => "<class 'datetime.date'>"
  | VStr _ => "<class 'str'>"
  | VModel _ => "<class 'pydantic.main.BaseModel'>"
  | VList _ => "<class 'list'>"
  | VDict _ => "<class 'dict'>"
  | VOther t _ => t
  end.

(** ** The serializer *)

Module ToonSerializer.

Import PyStr.

(** The string branch of [_serialize_value] (source lines 73-79). *)
Definition needs_quote (value : string) : bool :=
  contains comma_char value || contains nl_char value
  || negb (String.eqb (strip value) value).

Definition escaped (value : string) : string :=
  replace dquote_char (backslash ++ dquote)
    (replace backslash_char (backslash ++ backslash) value).

Definition serialize_str (value : string) : string :=
  if needs_quote value then dquote ++ escaped value ++ dquote else value.

(** A [for] loop that appends to [lines]: each iteration yields the lines
    it appends; [None] when the call budget is exhausted. *)
Fixpoint for_each {A : Type} (body : A -> option (list string)) (xs : list A)
  : option (list string) :=
  match xs with
  | [] => Some []
  | x :: rest =>
      match body x with
      | None => None
      | Some ls =>
          match for_each body rest with
          | None => None
          | Some more => Some (ls ++ more)%list
          end
      end
  end.

(** The lines one dict item contributes (source lines 105-109). *)
Definition dict_item_lines (indent key serialized_val : string) : list string :=
  if contains nl_char serialized_val
  then [indent ++ "  " ++ key ++ ":"; indent ++ "    " ++ serialized_val]
  else [indent ++ "  " ++ key ++ ": " ++ serialized_val].

(** The line one model field contributes (source lines 136-139). *)
Definition field_line (indent field_name serialized_val : string) : string :=
  if contains nl_char serialized_val
  then indent ++ field_name ++ ":" ++ serialized_val
  else indent ++ field_name ++ ": " ++ serialized_val.

(** The header of the tabular format (source line 169). *)
Definition header_line (indent : string) (count : nat) (fields : list string)
  : string :=
  indent ++ "[" ++ str_int (Z.of_nat count) ++ "]{" ++ join "," fields ++ "}:".

(** [_serialize_value], [_serialize_object] and
    [_serialize_list_of_models], one unit of [fuel] per call. *)
Fixpoint serialize_value_fuel (fuel : nat) (value : value) (indent_level : nat)
  {struct fuel} : option string :=
  match fuel with
  | O => None
  | S fuel =>
      let indent := repeat "  " indent_level in
      match value with
      | VNone => Some "null"
      | VBool b => Some (if b then "true" else "false")
      | VInt n => Some (str_int n)
      | VFloat repr => Some repr
      | VDecimal repr => Some repr
      | VDateTime iso => Some iso
      | VDate iso => Some iso
      | VStr s => Some (serialize_str s)
      | VModel obj => serialize_object_fuel fuel obj indent_level
      | VList [] => Some "[]"
      | VList items =>
          if forallb is_model items then
            match serialize_list_of_models_fuel fuel (models_of items) indent_level with
            | None => None
            | Some tabular => Some (nl ++ tabular)
            end
          else
            match
              for_each
                (fun item =>
                   match serialize_value_fuel fuel item 0 with
                   | None => None
                   | Some s => Some [s]
                   end) items
            with
            | None => None
            | Some strs => Some ("[" ++ join "," strs ++ "]")
            end
      | VDict items =>
          match
            for_each
              (fun kv =>
                 match serialize_value_fuel fuel (snd kv) (indent_level + 1) with
                 | None => None
                 | Some serialized_val =>
                     Some (dict_item_lines indent (fst kv) serialized_val)
                 end) items
          with
          | None => None
          | Some lines => Some (join nl lines)
          end
      | VOther _ repr => Some repr
      end
  end

with serialize_object_fuel (fuel : nat) (obj : model) (indent_level : nat)
  {struct fuel} : option string :=
  match fuel with
  | O => None
  | S fuel =>
      let indent := repeat "  " indent_level in
      match
        for_each
          (fun kv =>
             match serialize_value_fuel fuel (snd kv) (indent_level + 1) with
             | None => None
             | Some serialized_val =>
                 Some [field_line indent (fst kv) serialized_val]
             end) obj
      with
      | None => None
      | Some lines => Some (join nl lines)
      end
  end

with serialize_list_of_models_fuel (fuel : nat) (models : list model)
  (indent_level : nat) {struct fuel} : option string :=
  match fuel with
  | O => None
  | S fuel =>
      match models with
      | [] => Some "[]"
      | first_model :: _ =>
          let indent := repeat "  " indent_level in
          let fields := keys (model_dump first_model) in
          let header := header_line indent (List.length models) fields in
          match
            for_each
              (fun model =>
                 let data := model_dump model in
                 match
                   for_each
                     (fun field =>
                        match serialize_value_fuel fuel (dict_get data field) 0 with
                        | None => None
                        | Some serialized => Some [serialized]
                        end) fields
                 with
                 | None => None
                 | Some values => Some [indent ++ "  " ++ join "," values]
                 end) models
          with
          | None => None
          | Some rows => Some (join nl (header :: rows))
          end
      end
  end.

(** *** Call budgets that suffice *)

Definition max_of {A : Type} (f : A -> nat) (xs : list A) : nat :=
  fold_right (fun x acc => Nat.max (f x) acc) 0 xs.

(** Nesting height of a value: the calls [_serialize_value] needs. *)
Fixpoint height (v : value) : nat :=
  match v with
  | VModel fields => 2 + max_of (fun kv => height (snd kv)) fields
  | VList items => 2 + max_of height items
  | VDict items => 2 + max_of (fun kv => height (snd kv)) items
  | _ => 1
  end.

Definition object_fuel (obj : model) : nat :=
  1 + max_of (fun kv => height (snd kv)) obj.

Definition models_fuel (models : list model) : nat :=
  2 + max_of (fun obj => max_of (fun kv => height (snd kv)) obj) models.

Definition result_or_empty (r : option string) : string :=
  match r with
  | Some s => s
  | None => EmptyString
  end.

(** The three serializers as total functions: each is run on a budget
    that [fuel_enough] below shows sufficient. *)
Definition _serialize_value (value : value) (indent_level : nat) : string :=
  result_or_empty (serialize_value_fuel (height value) value indent_level).

Definition _serialize_object (obj : model) (indent_level : nat) : string :=
  result_or_empty (serialize_object_fuel (object_fuel obj) obj indent_level).

Definition _serialize_list_of_models (models : list model) (indent_level : nat)
  : string :=
  result_or_empty
    (serialize_list_of_models_fuel (models_fuel models) models indent_level).

(** *** The entry point *)

Inductive exception : Type :=
| ValueError (msg : string).

Inductive outcome : Type :=
| Return (s : string)
| Raise (e : exception).

(** [serialize(data, indent_level)] (source lines 201-210). *)
Definition serialize (data : value) (indent_level : nat) : outcome :=
  match data with
  | VList items =>
      if forallb is_model items
      then Return (_serialize_list_of_models (models_of items) indent_level)
      else Raise (ValueError "All items in list must be Pydantic models")
  | VModel obj => Return (_serialize_object obj indent_level)
  | _ => Raise (ValueError ("Unsupported type: " ++ type_str data))
  end.

End ToonSerializer.

Import PyStr ToonSerializer.

(** The records of Scenario A. *)
Definition emp1 : model :=
  [("id", VInt 1); ("name", VStr "Alice"); ("department", VStr "Engineering");
   ("salary", VInt 120000)].
Definition emp2 : model :=
  [("id", VInt 2); ("name", VStr "Bob"); ("department", VStr "Marketing");
   ("salary", VInt 95000)].

(** ** Notions used in the statements *)

(** The calls of [_serialize_value] with budget [fuel] on the values in [P]
    return what [sv] says. *)
Definition returns_on (fuel : nat) (sv : value -> nat -> string)
  (P : value -> Prop) : Prop :=
  forall v L, P v -> serialize_value_fuel fuel v L = Some (sv v L).

(** The row of one model under the columns [fields] (source lines 174-181). *)
Definition row_of (indent : string) (fields : list string) (obj : model) : string :=
  indent ++ "  "
  ++ join "," (map (fun field =>
       _serialize_value (dict_get (model_dump obj) field) 0) fields).

(** The cells of a model's own fields, in declared order. *)
Definition cells_of (obj : model) : list string :=
  map (fun kv => _serialize_value (dump_value (snd kv)) 0) obj.

Definition single_line_cells (obj : model) : Prop :=
  Forall (fun cell => contains nl_char cell = false) (cells_of obj).

(** Values whose encoding does not look at the indentation level: every
    value but a model, a dict and a non-empty list of models. *)
Definition level_free (v : value) : bool :=
  match v with
  | VModel _ => false
  | VDict _ => false
  | VList [] => true
  | VList items => negb (forallb is_model items)
  | _ => true
  end.

(** The header and the rows of the tabular format, before they are joined
    (source lines 162-184). *)
Definition tabular_entries (models : list model) (indent_level : nat)
  : list string :=
  match models with
  | [] => []
  | first_model :: _ =>
      let indent := repeat "  " indent_level in
      let fields := keys (model_dump first_model) in
      header_line indent (List.length models) fields
      :: map (row_of indent fields) models
  end.

(** ** The public wrappers *)

(** [ToonMixin] (source lines 213-251): both methods hand their argument to
    [ToonSerializer.serialize] at the default level; the class the
    classmethod is called on is not used. *)
Module ToonMixin.

Definition model_dump_toon (self : value) : outcome := serialize self 0.

Definition model_dump_toon_list (models : value) : outcome := serialize models 0.

End ToonMixin.

(** The standalone functions (source lines 255-278). *)
Definition model_dump_toon (model : value) : outcome := serialize model 0.

Definition models_dump_toon (models : value) : outcome := serialize models 0.

(** [create_prompt_toon] of [Toon/llm_integration_example.py] (lines 91-104):
    the TOON text of the employees inside a fixed prompt; an exception of the
    serializer propagates. *)
Module LlmIntegration.

Definition prompt_intro : string :=
  "Analyze the following employee data and answer the question.".

Definition prompt_data_label : string := "Employee Data (TOON format):".

Definition prompt_outro : string := "Please provide a detailed analysis.".

Definition create_prompt_toon (employees : value) (question : string) : outcome :=
  match ToonMixin.model_dump_toon_list employees with
  | Raise e => Raise e
  | Return data_toon =>
      Return (prompt_intro ++ nl ++ nl
              ++ prompt_data_label ++ nl
              ++ data_toon ++ nl ++ nl
              ++ "Question: " ++ question ++ nl ++ nl
              ++ prompt_outro)
  end.

End LlmIntegration.

(** ** Indentation by levels *)






(** ** Induction on values *)

Section ValueInduction.

Variable P : value -> Prop.
Hypothesis P_none : P VNone.
Hypothesis P_bool : forall b, P (VBool b).
Hypothesis P_int : forall n, P (VInt n).
Hypothesis P_float : forall r, P (VFloat r).
Hypothesis P_decimal : forall r, P (VDecimal r).
Hypothesis P_datetime : forall i, P (VDateTime i).
Hypothesis P_date : forall i, P (VDate i).
Hypothesis P_str : forall s, P (VStr s).
Hypothesis P_model :
  forall fields, Forall (fun kv => P (snd kv)) fields -> P (VModel fields).
Hypothesis P_list : forall items, Forall P items -> P (VList items).
Hypothesis P_dict :
  forall items, Forall (fun kv => P (snd kv)) items -> P (VDict items).
Hypothesis P_other : forall t r, P (VOther t r).

Fixpoint value_nested_ind (v : value) : P v :=
  match v with
  | VNone => P_none
  | VBool b => P_bool b
  | VInt n => P_int n
  | VFloat r => P_float r
  | VDecimal r => P_decimal r
  | VDateTime i => P_datetime i
  | VDate i => P_date i
  | VStr s => P_str s
  | VModel fields =>
      P_model fields
        ((fix go (l : list (string * value)) : Forall (fun kv => P (snd kv)) l :=
            match l with
            | [] => Forall_nil _
            | kv :: rest => Forall_cons kv (value_nested_ind (snd kv)) (go rest)
            end) fields)
  | VList items =>
      P_list items
        ((fix go (l : list value) : Forall P l :=
            match l with
            | [] => Forall_nil _
            | x :: rest => Forall_cons x (value_nested_ind x) (go rest)
            end) items)
  | VDict items =>
      P_dict items
        ((fix go (l : list (string * value)) : Forall (fun kv => P (snd kv)) l :=
            match l with
            | [] => Forall_nil _
            | kv :: rest => Forall_cons kv (value_nested_ind (snd kv)) (go rest)
            end) items)
  | VOther t r => P_other t r
  end.

End ValueInduction.

(** ** Loops and budgets *)

Section Loops.

Context {A : Type}.

Lemma for_each_ext (b1 b2 : A -> option (list string)) (xs : list A) :
  (forall x, In x xs -> b1 x = b2 x) -> for_each b1 xs = for_each b2 xs.
Proof.
  induction xs as [|x rest IH]; intros Hb; simpl; [reflexivity|].
  rewrite (Hb x (or_introl eq_refl)), IH; [reflexivity|].
  intros y Hy. apply Hb. now right.
Qed.

Lemma for_each_total (g : A -> list string) (xs : list A) :
  for_each (fun x => Some (g x)) xs = Some (flat_map g xs).
Proof.
  induction xs as [|x rest IH]; simpl; [reflexivity|]. now rewrite IH.
Qed.

Lemma for_each_flat_map (b : A -> option (list string)) (g : A -> list string)
  (xs : list A) :
  (forall x, In x xs -> b x = Some (g x)) -> for_each b xs = Some (flat_map g xs).
Proof.
  intros Hb. rewrite <- for_each_total. now apply for_each_ext.
Qed.

Lemma flat_map_singleton (g : A -> string) (xs : list A) :
  flat_map (fun x => [g x]) xs = map g xs.
Proof.
  induction xs as [|x rest IH]; simpl; [reflexivity|]. now rewrite IH.
Qed.

Lemma flat_map_ext_on (f g : A -> list string) (xs : list A) :
  (forall x, In x xs -> f x = g x) -> flat_map f xs = flat_map g xs.
Proof.
  induction xs as [|x rest IH]; intros H; simpl; [reflexivity|].
  rewrite (H x (or_introl eq_refl)), IH; [reflexivity|].
  intros y Hy. apply H. now right.
Qed.

Lemma max_of_In (f : A -> nat) (xs : list A) (x : A) :
  In x xs -> f x <= max_of f xs.
Proof.
  induction xs as [|y rest IH]; simpl; [tauto|].
  intros [->|Hin]; [apply Nat.le_max_l|].
  specialize (IH Hin). etransitivity; [exact IH|apply Nat.le_max_r].
Qed.

Lemma max_of_le (f : A -> nat) (xs : list A) (n : nat) :
  (forall x, In x xs -> f x <= n) -> max_of f xs <= n.
Proof.
  induction xs as [|y rest IH]; simpl; intros H; [lia|].
  apply Nat.max_lub; [apply H; now left|]. apply IH. intros; apply H; now right.
Qed.

End Loops.

Lemma max_of_map {A B : Type} (f : B -> nat) (g : A -> B) (xs : list A) :
  max_of f (map g xs) = max_of (fun x => f (g x)) xs.
Proof.
  induction xs as [|x rest IH]; simpl; [reflexivity|]. now rewrite IH.
Qed.

Lemma max_of_ext_in {A : Type} (f g : A -> nat) (xs : list A) :
  Forall (fun x => f x = g x) xs -> max_of f xs = max_of g xs.
Proof.
  induction 1 as [|x rest Hx _ IH]; simpl; [reflexivity|]. now rewrite Hx, IH.
Qed.

Lemma height_pos (v : value) : 1 <= height v.
Proof. destruct v; simpl; lia. Qed.

Lemma height_dump_value (v : value) : height (dump_value v) = height v.
Proof.
  induction v using value_nested_ind; try reflexivity; simpl;
    rewrite max_of_map; simpl; f_equal; f_equal; now apply max_of_ext_in.
Qed.

Lemma height_dict_get (d : list (string * value)) (key : string) :
  height (dict_get d key) <= Nat.max 1 (max_of (fun kv => height (snd kv)) d).
Proof.
  induction d as [|[k v] rest IH]; cbn [dict_get max_of fold_right snd height];
    [lia|].
  fold (max_of (fun kv => height (snd kv)) rest) in *.
  destruct (String.eqb k key); lia.
Qed.

Lemma max_of_model_dump (obj : model) :
  max_of (fun kv => height (snd kv)) (model_dump obj)
  = max_of (fun kv => height (snd kv)) obj.
Proof.
  unfold model_dump. rewrite max_of_map. simpl.
  apply max_of_ext_in. apply Forall_forall. intros; apply height_dump_value.
Qed.

(** One call of each serializer, given that the calls it makes return. *)
Section Steps.

Variable fuel : nat.
Variable sv : value -> nat -> string.

Lemma step_dict (items : list (string * value)) (L : nat) :
  returns_on fuel sv (fun v => exists k, In (k, v) items) ->
  serialize_value_fuel (S fuel) (VDict items) L
  = Some (join nl (flat_map (fun kv =>
      dict_item_lines (repeat "  " L) (fst kv) (sv (snd kv) (L + 1))) items)).
Proof.
  intros Hsub. cbn [serialize_value_fuel].
  erewrite for_each_flat_map; [reflexivity|].
  intros [k v] Hin. cbn [fst snd].
  rewrite (Hsub v (L + 1)); [reflexivity|]. now exists k.
Qed.

Lemma step_mixed_list (items : list value) (L : nat) :
  items <> [] -> forallb is_model items = false ->
  returns_on fuel sv (fun v => In v items) ->
  serialize_value_fuel (S fuel) (VList items) L
  = Some ("[" ++ join "," (map (fun item => sv item 0) items) ++ "]").
Proof.
  intros Hne Hmixed Hsub. destruct items as [|x rest]; [congruence|].
  cbn [serialize_value_fuel]. rewrite Hmixed.
  erewrite for_each_flat_map.
  - rewrite flat_map_singleton. reflexivity.
  - intros v Hin. now rewrite (Hsub v 0 Hin).
Qed.

Lemma step_object (obj : model) (L : nat) :
  returns_on fuel sv (fun v => exists k, In (k, v) obj) ->
  serialize_object_fuel (S fuel) obj L
  = Some (join nl (map (fun kv =>
      field_line (repeat "  " L) (fst kv) (sv (snd kv) (L + 1))) obj)).
Proof.
  intros Hsub. cbn [serialize_object_fuel].
  erewrite for_each_flat_map.
  - rewrite flat_map_singleton. reflexivity.
  - intros [k v] Hin. cbn [fst snd].
    rewrite (Hsub v (L + 1)); [reflexivity|]. now exists k.
Qed.

Lemma step_list_of_models (first_model : model) (rest : list model) (L : nat) :
  let models := first_model :: rest in
  let fields := keys (model_dump first_model) in
  returns_on fuel sv (fun v => exists obj field,
                In obj models /\ v = dict_get (model_dump obj) field) ->
  serialize_list_of_models_fuel (S fuel) models L
  = Some (join nl
      (header_line (repeat "  " L) (List.length models) fields
       :: map (fun obj =>
                 repeat "  " L ++ "  "
                 ++ join "," (map (fun field =>
                      sv (dict_get (model_dump obj) field) 0) fields))
            models)).
Proof.
  intros models fields Hsub. subst models. cbn [serialize_list_of_models_fuel].
  fold fields.
  erewrite for_each_flat_map.
  - rewrite flat_map_singleton. reflexivity.
  - intros obj Hin. cbn beta.
    erewrite for_each_flat_map.
    + rewrite flat_map_singleton. reflexivity.
    + intros field _. rewrite (Hsub _ 0); [reflexivity|].
      exists obj, field. split; [exact Hin|reflexivity].
Qed.

End Steps.

Lemma forallb_is_model_height (items : list value) (n : nat) :
  forallb is_model items = true ->
  max_of height items <= n ->
  forall obj, In obj (models_of items) ->
    2 + max_of (fun kv => height (snd kv)) obj <= n.
Proof.
  induction items as [|x rest IH]; cbn [forallb models_of max_of fold_right];
    [intros _ _ obj []|].
  fold (max_of height rest).
  intros Hall Hle obj Hin. apply andb_prop in Hall as [Hx Hrest].
  destruct x; try discriminate Hx. destruct Hin as [<-|Hin].
  - cbn [height] in Hle. lia.
  - apply IH; [exact Hrest|lia|exact Hin].
Qed.

Lemma models_of_nonempty (items : list value) :
  items <> [] -> forallb is_model items = true -> models_of items <> [].
Proof.
  destruct items as [|x rest]; [congruence|]. intros _ Hall.
  apply andb_prop in Hall as [Hx _]. destruct x; try discriminate Hx.
  cbn [models_of]. congruence.
Qed.

(** Any budget of at least [height value] makes [_serialize_value] return,
    and the result does not depend on the budget. *)
Lemma fuel_enough (fuel : nat) :
  forall (value : value) (L : nat),
    height value <= fuel ->
    serialize_value_fuel fuel value L = Some (_serialize_value value L).
Proof.
  induction fuel as [fuel IH] using lt_wf_ind. intros v L Hfuel.
  assert (Hcanon : forall r,
            (forall m, height v <= S m -> S m <= fuel ->
               serialize_value_fuel (S m) v L = Some r) ->
            serialize_value_fuel fuel v L = Some (_serialize_value v L)).
  { intros r Hall. pose proof (height_pos v) as Hpos.
    destruct fuel as [|fuel']; [lia|].
    rewrite (Hall fuel' Hfuel (le_n _)). unfold _serialize_value.
    destruct (height v) as [|h] eqn:Hh; [lia|].
    rewrite (Hall h); [reflexivity|lia|lia]. }
  pose proof (height_pos v) as Hpos.
  destruct fuel as [|fuel]; [lia|].
  destruct v as [| | | | | | | |obj|items|items|];
    try (eapply Hcanon; intros m _ _; reflexivity).
  - (* a model: one more call, to [_serialize_object] *)
    cbn [height] in Hfuel.
    set (g := fun kv : string * value =>
                field_line (repeat "  " L) (fst kv) (_serialize_value (snd kv) (L + 1))).
    assert (Hm : forall m, height (VModel obj) <= S m -> S m <= S fuel ->
              serialize_value_fuel (S m) (VModel obj) L = Some (join nl (map g obj))).
    { intros m Hm1 Hm2. cbn [height] in Hm1. destruct m as [|m]; [lia|].
      change (serialize_value_fuel (S (S m)) (VModel obj) L)
        with (serialize_object_fuel (S m) obj L).
      apply step_object. intros x L' [k Hin]. apply IH; [lia|].
      pose proof (max_of_In (fun kv => height (snd kv)) obj (k, x) Hin) as Hx.
      cbn [snd] in Hx. lia. }
    exact (Hcanon _ Hm).
  - (* a list *)
    destruct items as [|x rest].
    { eapply Hcanon; intros m _ _; reflexivity. }
    destruct (forallb is_model (x :: rest)) eqn:Hall.
    + set (items := x :: rest) in *.
      assert (Hne : models_of items <> []) by (now apply models_of_nonempty).
      destruct (models_of items) as [|first_model others] eqn:Hmo; [congruence|].
      set (fields := keys (model_dump first_model)).
      set (out := nl ++ join nl
        (header_line (repeat "  " L) (List.length (first_model :: others)) fields
         :: map (fun obj =>
                   repeat "  " L ++ "  "
                   ++ join "," (map (fun field =>
                        _serialize_value (dict_get (model_dump obj) field) 0) fields))
              (first_model :: others))).
      assert (Hm : forall m, height (VList items) <= S m -> S m <= S fuel ->
                serialize_value_fuel (S m) (VList items) L = Some out).
      { intros m Hm1 Hm2. cbn [height] in Hm1. destruct m as [|m]; [lia|].
        subst items. cbn [serialize_value_fuel]. fold (forallb is_model (x :: rest)).
        rewrite Hall. fold (models_of (x :: rest)). rewrite Hmo.
        rewrite (step_list_of_models m _serialize_value); [reflexivity|].
        intros v L' (obj & field & Hin & ->). apply IH; [lia|].
        rewrite <- Hmo in Hin.
        pose proof (forallb_is_model_height (x :: rest) m Hall ltac:(lia) obj Hin).
        pose proof (height_dict_get (model_dump obj) field) as Hget.
        rewrite max_of_model_dump in Hget. lia. }
      exact (Hcanon _ Hm).
    + set (items := x :: rest) in *.
      assert (Hm : forall m, height (VList items) <= S m -> S m <= S fuel ->
                serialize_value_fuel (S m) (VList items) L
                = Some ("[" ++ join "," (map (fun item => _serialize_value item 0) items)
                        ++ "]")).
      { intros m Hm1 Hm2. cbn [height] in Hm1.
        apply step_mixed_list; [subst items; congruence|exact Hall|].
        intros y L' Hin. apply IH; [lia|].
        pose proof (max_of_In height items y Hin). lia. }
      exact (Hcanon _ Hm).
  - (* a dict *)
    assert (Hm : forall m, height (VDict items) <= S m -> S m <= S fuel ->
              serialize_value_fuel (S m) (VDict items) L
              = Some (join nl (flat_map (fun kv =>
                  dict_item_lines (repeat "  " L) (fst kv)
                    (_serialize_value (snd kv) (L + 1))) items))).
    { intros m Hm1 Hm2. cbn [height] in Hm1.
      apply step_dict. intros y L' [k Hin]. apply IH; [lia|].
      pose proof (max_of_In (fun kv => height (snd kv)) items (k, y) Hin) as Hy.
      cbn [snd] in Hy. lia. }
    exact (Hcanon _ Hm).
Qed.

(** ** The equations of the source, for the total functions *)

Lemma _serialize_object_eq (obj : model) (indent_level : nat) :
  _serialize_object obj indent_level
  = join nl (map (fun kv =>
      field_line (repeat "  " indent_level) (fst kv)
        (_serialize_value (snd kv) (indent_level + 1))) obj).
Proof.
  unfold _serialize_object, object_fuel. cbn [Nat.add].
  rewrite (step_object _ _serialize_value); [reflexivity|].
  intros v L [k Hin]. apply fuel_enough.
  exact (max_of_In (fun kv => height (snd kv)) obj (k, v) Hin).
Qed.

Lemma object_fuel_enough (fuel : nat) (obj : model) (indent_level : nat) :
  object_fuel obj <= fuel ->
  serialize_object_fuel fuel obj indent_level
  = Some (_serialize_object obj indent_level).
Proof.
  unfold object_fuel. intros Hfuel. destruct fuel as [|fuel]; [lia|].
  rewrite _serialize_object_eq. apply step_object.
  intros v L [k Hin]. apply fuel_enough.
  pose proof (max_of_In (fun kv => height (snd kv)) obj (k, v) Hin) as Hv.
  cbn [snd] in Hv. lia.
Qed.

Lemma _serialize_list_of_models_nil (indent_level : nat) :
  _serialize_list_of_models [] indent_level = "[]".
Proof. reflexivity. Qed.

Lemma models_fuel_bound (models : list model) (obj : model) (field : string) :
  In obj models ->
  height (dict_get (model_dump obj) field) <= S (max_of
    (fun obj => max_of (fun kv => height (snd kv)) obj) models).
Proof.
  intros Hin.
  pose proof (height_dict_get (model_dump obj) field) as Hget.
  rewrite max_of_model_dump in Hget.
  pose proof (max_of_In (fun o => max_of (fun kv => height (snd kv)) o)
                models obj Hin) as Hobj.
  cbn beta in Hobj. lia.
Qed.

Lemma _serialize_list_of_models_cons (first_model : model) (rest : list model)
  (indent_level : nat) :
  let models := first_model :: rest in
  let indent := repeat "  " indent_level in
  let fields := keys (model_dump first_model) in
  _serialize_list_of_models models indent_level
  = join nl (header_line indent (List.length models) fields
             :: map (row_of indent fields) models).
Proof.
  intros models indent fields. unfold _serialize_list_of_models, models_fuel.
  cbn [Nat.add]. subst models.
  rewrite (step_list_of_models _ _serialize_value); [reflexivity|].
  intros v L (obj & field & Hin & ->). apply fuel_enough.
  now apply models_fuel_bound.
Qed.

Lemma models_fuel_enough (fuel : nat) (models : list model) (indent_level : nat) :
  models_fuel models <= fuel ->
  serialize_list_of_models_fuel fuel models indent_level
  = Some (_serialize_list_of_models models indent_level).
Proof.
  unfold models_fuel. intros Hfuel. destruct fuel as [|fuel]; [lia|].
  destruct models as [|first_model rest]; [reflexivity|].
  rewrite _serialize_list_of_models_cons.
  rewrite (step_list_of_models _ _serialize_value); [reflexivity|].
  intros v L (obj & field & Hin & ->). apply fuel_enough.
  pose proof (models_fuel_bound _ obj field Hin). lia.
Qed.

Lemma _serialize_value_model (obj : model) (indent_level : nat) :
  _serialize_value (VModel obj) indent_level = _serialize_object obj indent_level.
Proof. reflexivity. Qed.

Lemma _serialize_value_str (s : string) (indent_level : nat) :
  _serialize_value (VStr s) indent_level = serialize_str s.
Proof. reflexivity. Qed.

Lemma _serialize_value_empty_list (indent_level : nat) :
  _serialize_value (VList []) indent_level = "[]".
Proof. reflexivity. Qed.

Lemma _serialize_value_list_of_models (items : list value) (indent_level : nat) :
  items <> [] -> forallb is_model items = true ->
  _serialize_value (VList items) indent_level
  = nl ++ _serialize_list_of_models (models_of items) indent_level.
Proof.
  intros Hne Hall. unfold _serialize_value. cbn [height Nat.add].
  destruct items as [|x rest]; [congruence|].
  cbn [serialize_value_fuel]. fold (forallb is_model (x :: rest)).
  fold (models_of (x :: rest)). rewrite Hall.
  rewrite models_fuel_enough; [reflexivity|].
  unfold models_fuel. apply le_n_S.
  pose proof (models_of_nonempty _ Hne Hall) as Hmo.
  destruct (models_of (x :: rest)) as [|m ms] eqn:E; [congruence|].
  rewrite <- E. clear E Hmo.
  assert (H : max_of (fun obj => max_of (fun kv => height (snd kv)) obj)
                (models_of (x :: rest)) + 2 <= max_of height (x :: rest)).
  { assert (Hin : exists obj, In obj (models_of (x :: rest))).
    { apply andb_prop in Hall as [Hx _]. destruct x; try discriminate Hx.
      eexists. left. reflexivity. }
    destruct Hin as [obj0 Hin0].
    pose proof (forallb_is_model_height _ _ Hall (le_n _)) as Hb.
    pose proof (Hb obj0 Hin0).
    enough (max_of (fun obj => max_of (fun kv => height (snd kv)) obj)
              (models_of (x :: rest)) <= max_of height (x :: rest) - 2) by lia.
    apply max_of_le. intros obj Hin. specialize (Hb obj Hin). lia. }
  lia.
Qed.

Lemma _serialize_value_mixed_list (items : list value) (indent_level : nat) :
  forallb is_model items = false ->
  _serialize_value (VList items) indent_level
  = "[" ++ join "," (map (fun item => _serialize_value item 0) items) ++ "]".
Proof.
  intros Hmixed. unfold _serialize_value at 1. cbn [height Nat.add].
  rewrite (step_mixed_list _ _serialize_value); [reflexivity| |exact Hmixed|].
  - intros ->. discriminate Hmixed.
  - intros v L Hin. apply fuel_enough.
    pose proof (max_of_In height items v Hin). lia.
Qed.

Lemma _serialize_value_dict (items : list (string * value)) (indent_level : nat) :
  _serialize_value (VDict items) indent_level
  = join nl (flat_map (fun kv =>
      dict_item_lines (repeat "  " indent_level) (fst kv)
        (_serialize_value (snd kv) (indent_level + 1))) items).
Proof.
  unfold _serialize_value at 1. cbn [height Nat.add].
  rewrite (step_dict _ _serialize_value); [reflexivity|].
  intros v L [k Hin]. apply fuel_enough.
  pose proof (max_of_In (fun kv => height (snd kv)) items (k, v) Hin) as Hv.
  cbn [snd] in Hv. lia.
Qed.

(** ** Facts about strings *)

#[local] Arguments Ascii.eqb : simpl never.

Section StringFacts.

Lemma contains_app (c : ascii) (a b : string) :
  contains c (a ++ b) = contains c a || contains c b.
Proof.
  induction a as [|x a IH]; simpl; [reflexivity|].
  now rewrite IH, orb_assoc.
Qed.

Lemma count_app (c : ascii) (a b : string) :
  count c (a ++ b) = count c a + count c b.
Proof.
  induction a as [|x a IH]; simpl; [reflexivity|]. rewrite IH. lia.
Qed.

Lemma contains_count (c : ascii) (s : string) :
  contains c s = true <-> 1 <= count c s.
Proof.
  induction s as [|x s IH]; simpl.
  - split; [discriminate|lia].
  - destruct (Ascii.eqb x c); simpl; [split; [lia|reflexivity]|exact IH].
Qed.

Lemma contains_false_count (c : ascii) (s : string) :
  contains c s = false <-> count c s = 0.
Proof.
  pose proof (contains_count c s) as H.
  destruct (contains c s); split; intros E; try reflexivity; try discriminate.
  - pose proof (proj1 H eq_refl). lia.
  - destruct (count c s); [reflexivity|].
    assert (true = false) by (symmetry; apply H; lia). discriminate.
Qed.

Lemma length_app (a b : string) :
  String.length (a ++ b) = String.length a + String.length b.
Proof.
  induction a as [|x a IH]; simpl; [reflexivity|]. now rewrite IH.
Qed.

Lemma length_replace (old : ascii) (new s : string) :
  1 <= String.length new -> String.length s <= String.length (replace old new s).
Proof.
  intros Hnew. induction s as [|x s IH]; simpl; [lia|].
  destruct (Ascii.eqb x old); simpl; [rewrite length_app|]; lia.
Qed.

Lemma count_replace (c old : ascii) (new s : string) :
  Ascii.eqb old c = false -> count c new = 0 ->
  count c (replace old new s) = count c s.
Proof.
  intros Hc Hnew. induction s as [|x s IH]; simpl; [reflexivity|].
  destruct (Ascii.eqb x old) eqn:Hx.
  - apply Ascii.eqb_eq in Hx. subst x. rewrite Hc, count_app, Hnew, IH.
    reflexivity.
  - simpl. now rewrite IH.
Qed.

Lemma app_assoc_str (a b c : string) : (a ++ b) ++ c = a ++ (b ++ c).
Proof.
  induction a as [|x a IH]; simpl; [reflexivity|]. now rewrite IH.
Qed.

Lemma app_empty_r (a : string) : a ++ EmptyString = a.
Proof.
  induction a as [|x a IH]; simpl; [reflexivity|]. now rewrite IH.
Qed.

Lemma lines_aux_length (cur s : string) :
  List.length (lines_aux cur s) = S (count nl_char s).
Proof.
  revert cur. induction s as [|x s IH]; intros cur; simpl; [reflexivity|].
  destruct (Ascii.eqb x nl_char); simpl; now rewrite IH.
Qed.

Lemma lines_length (s : string) :
  List.length (lines s) = S (count nl_char s).
Proof. apply lines_aux_length. Qed.

Lemma lines_aux_app (cur a rest : string) :
  contains nl_char a = false ->
  lines_aux cur (a ++ rest) = lines_aux (cur ++ a) rest.
Proof.
  revert cur. induction a as [|x a IH]; intros cur Ha; simpl.
  - now rewrite app_empty_r.
  - simpl in Ha. apply orb_false_elim in Ha as [Hx Ha].
    rewrite Hx, IH by exact Ha. now rewrite app_assoc_str.
Qed.

Lemma lines_single (a : string) :
  contains nl_char a = false -> lines a = [a].
Proof.
  intros Ha. unfold lines.
  rewrite <- (app_empty_r a) at 1. now rewrite lines_aux_app.
Qed.

Lemma lines_cons (a rest : string) :
  contains nl_char a = false -> lines (a ++ nl ++ rest) = a :: lines rest.
Proof.
  intros Ha. unfold lines. now rewrite lines_aux_app.
Qed.

Lemma lines_join (ls : list string) :
  ls <> [] -> Forall (fun l => contains nl_char l = false) ls ->
  lines (join nl ls) = ls.
Proof.
  intros Hne Hall. induction Hall as [|a rest Ha Hrest IH]; [congruence|].
  destruct rest as [|b rest].
  - simpl. now apply lines_single.
  - change (join nl (a :: b :: rest)) with (a ++ nl ++ join nl (b :: rest)).
    rewrite lines_cons by exact Ha. f_equal. apply IH. congruence.
Qed.

Lemma contains_join (c : ascii) (sep : string) (ls : list string) :
  contains c sep = false ->
  contains c (join sep ls) = existsb (contains c) ls.
Proof.
  intros Hsep. induction ls as [|a rest IH]; [reflexivity|].
  destruct rest as [|b rest].
  - simpl. now rewrite orb_false_r.
  - change (join sep (a :: b :: rest)) with (a ++ sep ++ join sep (b :: rest)).
    rewrite !contains_app, Hsep, IH. reflexivity.
Qed.

Lemma contains_repeat_spaces (c : ascii) (n : nat) :
  Ascii.eqb space_char c = false -> contains c (repeat "  " n) = false.
Proof.
  unfold space_char. intros Hc. induction n as [|n IH]; simpl; [reflexivity|].
  now rewrite Hc, IH.
Qed.


Lemma repeat_succ (n : nat) : repeat "  " n ++ "  " = repeat "  " (n + 1).
Proof.
  induction n as [|n IH]; simpl; [reflexivity|]. now rewrite IH.
Qed.

End StringFacts.

(** ** The String Escaper *)

Lemma escaped_count (c : ascii) (s : string) :
  Ascii.eqb backslash_char c = false -> Ascii.eqb dquote_char c = false ->
  count c (escaped s) = count c s.
Proof.
  intros Hb Hq. unfold escaped.
  rewrite count_replace; [rewrite count_replace| |].
  - reflexivity.
  - exact Hb.
  - cbn [backslash append count]. now rewrite Hb.
  - exact Hq.
  - cbn [backslash dquote append count]. now rewrite Hb, Hq.
Qed.

Lemma escaped_length (s : string) : String.length s <= String.length (escaped s).
Proof.
  unfold escaped.
  etransitivity; [apply (length_replace backslash_char (backslash ++ backslash))|].
  - simpl. lia.
  - apply length_replace. simpl. lia.
Qed.

Lemma quoted_neq (s : string) : dquote ++ escaped s ++ dquote <> s.
Proof.
  intros E. apply (f_equal String.length) in E.
  rewrite !length_app in E. pose proof (escaped_length s). simpl in E. lia.
Qed.

Lemma needs_quote_false (s : string) :
  needs_quote s = false
  <-> contains comma_char s = false /\ contains nl_char s = false /\ strip s = s.
Proof.
  unfold needs_quote. split.
  - intros H. apply orb_false_elim in H as [H Hs].
    apply orb_false_elim in H as [Hc Hn].
    apply negb_false_iff, String.eqb_eq in Hs. auto.
  - intros (Hc & Hn & Hs). rewrite Hc, Hn. simpl.
    apply negb_false_iff, String.eqb_eq. exact Hs.
Qed.

(** C2. A text is emitted unchanged exactly when it has no comma, no newline
    and equals its stripped form; otherwise backslashes are doubled, then
    double quotes get a backslash, then the result is wrapped in double
    quotes, and the quoted text keeps every comma of the original. *)
Theorem string_escaper_spec (s : string) (indent_level : nat) :
  let plain :=
    negb (contains comma_char s) && negb (contains nl_char s)
    && String.eqb (strip s) s in
  let quoted :=
    dquote
    ++ replace dquote_char (backslash ++ dquote)
         (replace backslash_char (backslash ++ backslash) s)
    ++ dquote in
  (_serialize_value (VStr s) indent_level = s <-> plain = true)
  /\ _serialize_value (VStr s) indent_level = (if plain then s else quoted)
  /\ count comma_char quoted = count comma_char s.
Proof.
  intros plain quoted.
  assert (Hplain : plain = negb (needs_quote s)).
  { unfold plain, needs_quote. rewrite !negb_orb, negb_involutive. reflexivity. }
  assert (Hval : _serialize_value (VStr s) indent_level = if plain then s else quoted).
  { rewrite _serialize_value_str, Hplain. unfold serialize_str.
    destruct (needs_quote s); reflexivity. }
  split; [split|split].
  - intros E. rewrite Hval in E. destruct plain; [reflexivity|].
    exfalso. exact (quoted_neq s E).
  - intros E. rewrite Hval, E. reflexivity.
  - exact Hval.
  - unfold quoted. fold (escaped s). rewrite !count_app, escaped_count by reflexivity.
    change (count comma_char dquote) with 0. lia.
Qed.

(** C7 as stated fails: the entry point rejects a bare string. *)
Lemma encode_plain_string_counterexample :
  ~ (forall s : string,
       contains comma_char s = false -> contains nl_char s = false ->
       strip s = s -> serialize (VStr s) 0 = Return s).
Proof.
  intros H. specialize (H "Alice" eq_refl eq_refl eq_refl). discriminate H.
Qed.

(** C7, amended. A text with no comma, no newline and no surrounding
    whitespace is returned unchanged by [_serialize_value], hence appears
    unquoted as a field value; [serialize] on the bare text raises
    [ValueError]. *)
Theorem plain_string_identity (s : string) (indent_level : nat) :
  contains comma_char s = false -> contains nl_char s = false -> strip s = s ->
  _serialize_value (VStr s) indent_level = s
  /\ (forall name, serialize (VModel [(name, VStr s)]) 0 = Return (name ++ ": " ++ s))
  /\ serialize (VStr s) indent_level
     = Raise (ValueError "Unsupported type: <class 'str'>").
Proof.
  intros Hc Hn Hs.
  assert (Hq : needs_quote s = false) by (apply needs_quote_false; auto).
  assert (Hval : forall L, _serialize_value (VStr s) L = s).
  { intros L. rewrite _serialize_value_str. unfold serialize_str. now rewrite Hq. }
  split; [apply Hval|]. split; [|reflexivity].
  intros name. cbn [serialize]. rewrite _serialize_object_eq.
  cbn [map fst snd join String.concat repeat]. rewrite Hval.
  unfold field_line. rewrite Hn. reflexivity.
Qed.

Lemma plain_string_identity_witness :
  _serialize_value (VStr "Alice") 0 = "Alice"
  /\ (forall name,
        serialize (VModel [(name, VStr "Alice")]) 0 = Return (name ++ ": " ++ "Alice"))
  /\ serialize (VStr "Alice") 0
     = Raise (ValueError "Unsupported type: <class 'str'>").
Proof.
  apply (plain_string_identity "Alice" 0); reflexivity.
Defined.

(** C10. A text with a newline is wrapped in double quotes with only
    backslashes and double quotes replaced; every newline stays, so the
    encoded scalar spans more than one physical line. *)
Theorem newline_string_spans_lines (s : string) (indent_level : nat) :
  contains nl_char s = true ->
  _serialize_value (VStr s) indent_level
  = dquote
    ++ replace dquote_char (backslash ++ dquote)
         (replace backslash_char (backslash ++ backslash) s)
    ++ dquote
  /\ count nl_char (_serialize_value (VStr s) indent_level) = count nl_char s
  /\ 1 < List.length (lines (_serialize_value (VStr s) indent_level)).
Proof.
  intros Hn.
  assert (Hval : _serialize_value (VStr s) indent_level
                 = dquote ++ escaped s ++ dquote).
  { rewrite _serialize_value_str. unfold serialize_str, needs_quote.
    now rewrite Hn, orb_true_r. }
  assert (Hcount : count nl_char (_serialize_value (VStr s) indent_level)
                   = count nl_char s).
  { rewrite Hval, !count_app, escaped_count by reflexivity.
    change (count nl_char dquote) with 0. lia. }
  split; [exact Hval|]. split; [exact Hcount|].
  rewrite lines_length, Hcount. apply contains_count in Hn. lia.
Qed.

Lemma newline_string_spans_lines_witness :
  contains nl_char ("a" ++ nl ++ "b") = true
  /\ 1 < List.length (lines (_serialize_value (VStr ("a" ++ nl ++ "b")) 0)).
Proof.
  split; [reflexivity|].
  apply (newline_string_spans_lines ("a" ++ nl ++ "b") 0). reflexivity.
Defined.

(** ** The entry point and the tabular format *)

Lemma forallb_is_model_map (models : list model) :
  forallb is_model (map VModel models) = true.
Proof. induction models as [|m ms IH]; simpl; [reflexivity|exact IH]. Qed.

Lemma models_of_map (models : list model) : models_of (map VModel models) = models.
Proof. induction models as [|m ms IH]; simpl; [reflexivity|now rewrite IH]. Qed.

Lemma keys_model_dump (obj : model) : keys (model_dump obj) = map fst obj.
Proof.
  unfold keys, model_dump. rewrite map_map. apply map_ext. reflexivity.
Qed.

Lemma dict_get_model_dump (obj : model) (field : string) :
  dict_get (model_dump obj) field = dump_value (dict_get obj field).
Proof.
  induction obj as [|[k v] rest IH]; simpl; [reflexivity|].
  destruct (String.eqb k field); [reflexivity|exact IH].
Qed.

Lemma dict_get_absent (obj : model) (field : string) :
  has_key obj field = false -> dict_get obj field = VNone.
Proof.
  unfold has_key, keys. induction obj as [|[k v] rest IH]; simpl; [reflexivity|].
  intros H. apply orb_false_elim in H as [Hk Hrest].
  rewrite String.eqb_sym, Hk. exact (IH Hrest).
Qed.

Lemma dict_get_skip (before after : model) (extra : string) (v : value)
  (field : string) :
  field <> extra ->
  dict_get (before ++ (extra, v) :: after)%list field
  = dict_get (before ++ after)%list field.
Proof.
  intros Hne. induction before as [|[k x] rest IH]; simpl.
  - destruct (String.eqb_spec extra field); [congruence|reflexivity].
  - now rewrite IH.
Qed.

Lemma forallb_is_model_false (items : list value) :
  forallb is_model items = false <-> exists x, In x items /\ is_model x = false.
Proof.
  split.
  - induction items as [|x rest IH]; simpl; [discriminate|].
    destruct (is_model x) eqn:Hx; simpl.
    + intros H. destruct (IH H) as (y & Hin & Hy). exists y. auto.
    + intros _. exists x. auto.
  - intros (x & Hin & Hx). destruct (forallb is_model items) eqn:E; [|reflexivity].
    rewrite forallb_forall in E. rewrite (E x Hin) in Hx. discriminate.
Qed.

(** C1. Scenario A: the two employee records give the header line and two
    rows indented by two spaces, joined by single newlines, with no newline
    at the end. *)
Theorem scenario_A_tabular :
  serialize (VList [VModel emp1; VModel emp2]) 0
  = Return ("[2]{id,name,department,salary}:" ++ nl
            ++ "  1,Alice,Engineering,120000" ++ nl
            ++ "  2,Bob,Marketing,95000")
  /\ lines (_serialize_list_of_models [emp1; emp2] 0)
     = ["[2]{id,name,department,salary}:";
        "  1,Alice,Engineering,120000";
        "  2,Bob,Marketing,95000"].
Proof. split; vm_compute; reflexivity. Qed.

(** C6. A list with no element is the token [[]], at the entry point and as
    a nested value, and no call fails on it. *)
Theorem empty_list_token :
  (forall L, serialize (VList []) L = Return "[]")
  /\ (forall L, _serialize_list_of_models [] L = "[]")
  /\ (forall L, _serialize_value (VList []) L = "[]")
  /\ (forall fuel L, serialize_value_fuel (S fuel) (VList []) L = Some "[]")
  /\ (forall before after name L,
        _serialize_object (before ++ (name, VList []) :: after)%list L
        = let line := fun kv : string * value =>
                        field_line (repeat "  " L) (fst kv)
                          (_serialize_value (snd kv) (L + 1)) in
          join nl (List.app (map line before)
                     ((repeat "  " L ++ name ++ ": []") :: map line after)))
  /\ (forall name, serialize (VModel [(name, VList [])]) 0 = Return (name ++ ": []")).
Proof.
  split; [reflexivity|]. split; [reflexivity|]. split; [reflexivity|].
  split; [reflexivity|]. split.
  - intros before after name L. rewrite _serialize_object_eq, map_app.
    reflexivity.
  - intros name. cbn [serialize]. rewrite _serialize_object_eq. reflexivity.
Qed.




(** C9. The columns of the tabular format are the field names of the first
    model alone; every row looks each of them up in the dumped model, prints
    [null] for a name the model lacks and ignores fields outside the columns;
    differing field sequences raise nothing. *)
Theorem tabular_columns_from_first (first_model : model) (rest : list model)
  (indent_level : nat) :
  let models := first_model :: rest in
  let fields := map fst first_model in
  let indent := repeat "  " indent_level in
  serialize (VList (map VModel models)) indent_level
  = Return (join nl
      (header_line indent (List.length models) fields
       :: map (fun obj =>
                 indent ++ "  "
                 ++ join "," (map (fun field =>
                      _serialize_value (dict_get (model_dump obj) field) 0) fields))
            models))
  /\ (forall obj field, has_key obj field = false ->
        _serialize_value (dict_get (model_dump obj) field) 0 = "null")
  /\ (forall before after extra v,
        ~ In extra fields ->
        row_of indent fields (before ++ (extra, v) :: after)%list
        = row_of indent fields (before ++ after)%list).
Proof.
  intros models fields indent. split; [|split].
  - cbn [serialize]. rewrite forallb_is_model_map, models_of_map.
    subst models. rewrite _serialize_list_of_models_cons, keys_model_dump.
    reflexivity.
  - intros obj field Habsent.
    now rewrite dict_get_model_dump, dict_get_absent.
  - intros before after extra v Hextra. unfold row_of. do 3 f_equal.
    apply map_ext_in. intros field Hin.
    rewrite !dict_get_model_dump, dict_get_skip; [reflexivity|].
    intros ->. exact (Hextra Hin).
Qed.

Lemma tabular_columns_from_first_witness :
  _serialize_value (dict_get (model_dump [("id", VInt 2)]) "name") 0 = "null"
  /\ serialize (VList [VModel emp1; VModel [("id", VInt 2); ("extra", VBool true)]]) 0
     = Return ("[2]{id,name,department,salary}:" ++ nl
               ++ "  1,Alice,Engineering,120000" ++ nl
               ++ "  2,null,null,null").
Proof.
  split.
  - apply (proj1 (proj2 (tabular_columns_from_first emp1 [] 0)) [("id", VInt 2)] "name").
    reflexivity.
  - exact (proj1 (tabular_columns_from_first emp1
                    [[("id", VInt 2); ("extra", VBool true)]] 0)).
Defined.

(** The record encoder on one field: a single-line child follows the name
    after [": "]; a multi-line child is appended right after the colon, with
    no line break added. *)
Lemma field_line_single (indent name child : string) :
  contains nl_char child = false ->
  field_line indent name child = indent ++ name ++ ": " ++ child.
Proof. intros H. unfold field_line. now rewrite H. Qed.

Lemma field_line_multi (indent name child : string) :
  contains nl_char child = true ->
  field_line indent name child = indent ++ name ++ ":" ++ child.
Proof. intros H. unfold field_line. now rewrite H. Qed.

(** A non-empty list of models is the one child that starts with a newline:
    there the field name does stand alone on its line. *)
Lemma field_line_list_of_models (items : list value) (name : string) (L : nat) :
  items <> [] -> forallb is_model items = true ->
  field_line (repeat "  " L) name (_serialize_value (VList items) (L + 1))
  = repeat "  " L ++ name ++ ":" ++ nl
    ++ _serialize_list_of_models (models_of items) (L + 1).
Proof.
  intros Hne Hall. rewrite _serialize_value_list_of_models by assumption.
  apply field_line_multi. reflexivity.
Qed.

(** C4, evaluated on the code. Scenario D: a mapping value with several keys
    is multi-line, yet its first entry lands on the line of the field name;
    the record encoder adds no line break of its own. *)
Theorem scenario_D_mapping_field :
  serialize (VModel [("metadata", VDict [("key1", VStr "value1");
                                        ("key2", VInt 42);
                                        ("key3", VBool true)])]) 0
  = Return ("metadata:    key1: value1" ++ nl
            ++ "    key2: 42" ++ nl
            ++ "    key3: true")
  /\ hd EmptyString (lines (_serialize_object
                     [("metadata", VDict [("key1", VStr "value1");
                                          ("key2", VInt 42);
                                          ("key3", VBool true)])] 0))
     <> "metadata:".
Proof. split; [vm_compute; reflexivity|vm_compute; discriminate]. Qed.

(** ** Physical lines of blocks whose children are single-line *)

Lemma contains_nl_string_of_uint (d : Decimal.uint) :
  contains nl_char (NilEmpty.string_of_uint d) = false.
Proof.
  induction d; cbn [NilEmpty.string_of_uint contains]; try rewrite IHd;
    reflexivity.
Qed.

Lemma contains_nl_nilzero (d : Decimal.uint) :
  contains nl_char (NilZero.string_of_uint d) = false.
Proof.
  destruct d; try apply (contains_nl_string_of_uint (_ d)). reflexivity.
Qed.

Lemma contains_nl_str_int (n : Z) : contains nl_char (str_int n) = false.
Proof.
  unfold str_int. destruct (Z.to_int n) as [d|d]; cbn [NilZero.string_of_int].
  - apply contains_nl_nilzero.
  - cbn [contains]. rewrite contains_nl_nilzero. reflexivity.
Qed.

Lemma contains_nl_header (indent_level count : nat) (fields : list string) :
  Forall (fun f => contains nl_char f = false) fields ->
  contains nl_char (header_line (repeat "  " indent_level) count fields) = false.
Proof.
  intros Hfields. unfold header_line.
  rewrite !contains_app, contains_repeat_spaces, contains_nl_str_int by reflexivity.
  rewrite contains_join by reflexivity.
  replace (existsb (contains nl_char) fields) with false; [reflexivity|].
  symmetry. induction Hfields as [|f fs Hf _ IH]; simpl; [reflexivity|].
  now rewrite Hf, IH.
Qed.

Lemma existsb_contains_false (c : ascii) (ls : list string) :
  Forall (fun l => contains c l = false) ls -> existsb (contains c) ls = false.
Proof.
  induction 1 as [|l ls Hl _ IH]; simpl; [reflexivity|]. now rewrite Hl, IH.
Qed.

Lemma dict_get_own_field (obj : model) :
  NoDup (map fst obj) ->
  forall kv, In kv obj -> dict_get obj (fst kv) = snd kv.
Proof.
  induction obj as [|[k v] rest IH]; intros Hnd kv Hin; [destruct Hin|].
  cbn [map fst] in Hnd. apply NoDup_cons_iff in Hnd as [Hk Hnd].
  cbn [dict_get]. destruct Hin as [<-|Hin].
  - cbn [fst snd]. now rewrite String.eqb_refl.
  - destruct (String.eqb_spec k (fst kv)) as [->|_].
    + exfalso. apply Hk. now apply in_map.
    + now apply IH.
Qed.

(** With unique field names, looking up a model's own field names yields its
    field values in declared order. *)
Lemma row_of_own_fields (indent : string) (obj : model) :
  NoDup (map fst obj) ->
  row_of indent (map fst obj) obj
  = indent ++ "  "
    ++ join "," (map (fun kv => _serialize_value (dump_value (snd kv)) 0) obj).
Proof.
  intros Hnd. unfold row_of. do 3 f_equal. rewrite map_map.
  apply map_ext_in. intros kv Hin.
  now rewrite dict_get_model_dump, dict_get_own_field.
Qed.

(** The tabular format of models with the same unique field names and
    single-line cells: its physical lines are the header and one row per
    model. *)
Lemma tabular_lines (first_model : model) (rest : list model) (indent_level : nat) :
  let models := first_model :: rest in
  let fields := map fst first_model in
  NoDup fields ->
  Forall (fun f => contains nl_char f = false) fields ->
  Forall (fun obj => map fst obj = fields) models ->
  Forall single_line_cells models ->
  lines (_serialize_list_of_models models indent_level)
  = header_line (repeat "  " indent_level) (List.length models) fields
    :: map (fun obj => repeat "  " (indent_level + 1) ++ join "," (cells_of obj))
         models.
Proof.
  intros models fields Hnd Hnames Hsame Hcells.
  assert (Hrows : map (row_of (repeat "  " indent_level) fields) models
                  = map (fun obj => repeat "  " (indent_level + 1)
                                    ++ join "," (cells_of obj)) models).
  { apply map_ext_in. intros obj Hin.
    rewrite Forall_forall in Hsame. specialize (Hsame obj Hin).
    rewrite <- Hsame, row_of_own_fields by (rewrite Hsame; exact Hnd).
    rewrite <- repeat_succ, app_assoc_str. reflexivity. }
  subst models. rewrite _serialize_list_of_models_cons, keys_model_dump.
  fold fields. rewrite Hrows. apply lines_join; [discriminate|].
  constructor; [now apply contains_nl_header|].
  apply Forall_forall. intros row Hrow. apply in_map_iff in Hrow as (obj & <- & Hin).
  rewrite Forall_forall in Hcells.
  rewrite contains_app, contains_repeat_spaces, contains_join by reflexivity.
  apply existsb_contains_false. exact (Hcells obj Hin).
Qed.

(** C5 as stated fails twice: a text cell with a newline makes its row span
    two physical lines, so the header is not followed by exactly one line
    per model; and a list cell carries the commas between its items without
    any quoting. *)
Lemma tabular_row_lines_counterexample :
  ~ (forall (first_model : model) (rest : list model) (L : nat),
       let models := first_model :: rest in
       Forall (fun obj => map fst obj = map fst first_model) models ->
       List.length (lines (_serialize_list_of_models models L))
       = 1 + List.length models)
  /\ ~ (forall (first_model : model) (rest : list model),
          let models := first_model :: rest in
          Forall (fun obj => map fst obj = map fst first_model) models ->
          forall obj cell,
            In obj models -> In cell (cells_of obj) ->
            contains comma_char cell = true ->
            exists body, cell = dquote ++ body ++ dquote).
Proof.
  split.
  - intros H.
    specialize (H [("a", VStr ("x" ++ nl ++ "y"))] [] 0
                  (Forall_cons _ eq_refl (Forall_nil _))).
    vm_compute in H. discriminate H.
  - intros H.
    destruct (H [("tags", VList [VStr "p"; VStr "q"])] []
                (Forall_cons _ eq_refl (Forall_nil _))
                [("tags", VList [VStr "p"; VStr "q"])] "[p,q]"
                (or_introl eq_refl) (or_introl eq_refl) eq_refl) as [body E].
    discriminate E.
Qed.

(** C5, amended. For k >= 1 models sharing the same unique field names, the
    names holding no newline and the cells holding no newline, the physical
    lines are the header [[k]{f1,...}:] at the given level followed by
    exactly k rows one level deeper, each the comma-joined cells of one
    model in field order, as many as there are fields; a text field value
    with a comma is in its quoted form (a cell that is not a text, such as a
    list, is joined as it is encoded). *)
Theorem tabular_header_and_rows (first_model : model) (rest : list model)
  (indent_level : nat) :
  let models := first_model :: rest in
  let fields := map fst first_model in
  NoDup fields ->
  Forall (fun f => contains nl_char f = false) fields ->
  Forall (fun obj => map fst obj = fields) models ->
  Forall single_line_cells models ->
  lines (_serialize_list_of_models models indent_level)
  = (repeat "  " indent_level ++ "[" ++ str_len models ++ "]{"
     ++ join "," fields ++ "}:")
    :: map (fun obj =>
              repeat "  " (indent_level + 1)
              ++ join "," (map (fun kv =>
                   _serialize_value (dump_value (snd kv)) 0) obj))
         models
  /\ List.length (lines (_serialize_list_of_models models indent_level))
     = 1 + List.length models
  /\ Forall (fun obj => List.length (cells_of obj) = List.length fields) models
  /\ (forall obj name s,
        In obj models -> In (name, VStr s) obj -> contains comma_char s = true ->
        In (dquote
            ++ replace dquote_char (backslash ++ dquote)
                 (replace backslash_char (backslash ++ backslash) s)
            ++ dquote) (cells_of obj)).
Proof.
  intros models fields Hnd Hnames Hsame Hcells.
  pose proof (tabular_lines first_model rest indent_level Hnd Hnames Hsame Hcells)
    as Hlines.
  split; [exact Hlines|]. split; [|split].
  - fold models in Hlines. rewrite Hlines. cbn [List.length].
    now rewrite length_map.
  - apply Forall_forall. intros obj Hin. rewrite Forall_forall in Hsame.
    unfold cells_of. rewrite length_map, <- (Hsame obj Hin), length_map.
    reflexivity.
  - intros obj name s _ Hin Hcomma. unfold cells_of.
    apply in_map_iff. exists (name, VStr s). split; [|exact Hin].
    cbn [snd dump_value]. rewrite _serialize_value_str.
    unfold serialize_str, needs_quote. rewrite Hcomma. reflexivity.
Qed.

Lemma tabular_header_and_rows_witness :
  lines (_serialize_list_of_models [emp1; emp2] 0)
  = (EmptyString ++ "[" ++ "2" ++ "]{" ++ "id,name,department,salary" ++ "}:")
    :: map (fun obj =>
              repeat "  " 1
              ++ join "," (map (fun kv =>
                   _serialize_value (dump_value (snd kv)) 0) obj))
         [emp1; emp2].
Proof.
  apply (tabular_header_and_rows emp1 [emp2] 0).
  - repeat (constructor; [simpl; intuition discriminate|]). constructor.
  - repeat constructor.
  - repeat constructor.
  - repeat constructor.
Defined.

(** ** Indentation *)


(** A mapping inside a mapping: the first entry of the inner block receives
    the indentation of the outer entry on top of its own. *)
Example nested_mapping_lines :
  lines (_serialize_value
           (VDict [("a", VDict [("x", VInt 1); ("y", VInt 2)])]) 0)
  = ["  a:"; "        x: 1"; "    y: 2"].
Proof. vm_compute. reflexivity. Qed.


(** ** Further properties of the value encoder *)

(** X1. Only models, dicts and non-empty lists of models are laid out by
    level: every other value, flat lists included, has the same encoding at
    every indentation level. *)
Theorem level_free_encoding (v : value) (L L' : nat) :
  level_free v = true -> _serialize_value v L = _serialize_value v L'.
Proof.
  intros Hfree. destruct v as [| | | | | | | |obj|items|items|];
    try reflexivity; try discriminate Hfree.
  destruct items as [|x rest]; [reflexivity|].
  cbn [level_free] in Hfree. apply negb_true_iff in Hfree.
  now rewrite !_serialize_value_mixed_list by exact Hfree.
Qed.

Lemma level_free_encoding_witness :
  _serialize_value (VList [VStr "a,b"; VDict [("k", VInt 1)]]) 0
  = _serialize_value (VList [VStr "a,b"; VDict [("k", VInt 1)]]) 5.
Proof.
  apply (level_free_encoding (VList [VStr "a,b"; VDict [("k", VInt 1)]]) 0 5).
  reflexivity.
Defined.

Lemma forallb_is_model_texts (texts : list string) :
  texts <> [] -> forallb is_model (map VStr texts) = false.
Proof. destruct texts as [|t rest]; [congruence|reflexivity]. Qed.

(** X2. A non-empty list of texts is one bracketed line of the texts, each
    through the string escaper, joined by commas with no space, whatever the
    level. *)
Theorem flat_list_of_texts (texts : list string) (indent_level : nat) :
  texts <> [] ->
  _serialize_value (VList (map VStr texts)) indent_level
  = "[" ++ join "," (map serialize_str texts) ++ "]".
Proof.
  intros Hne.
  rewrite _serialize_value_mixed_list by (now apply forallb_is_model_texts).
  rewrite map_map. reflexivity.
Qed.

Lemma flat_list_of_texts_witness :
  _serialize_value (VList (map VStr ["python"; "pydantic"; "toon"])) 1
  = "[" ++ join "," (map serialize_str ["python"; "pydantic"; "toon"]) ++ "]".
Proof.
  apply (flat_list_of_texts ["python"; "pydantic"; "toon"] 1). discriminate.
Defined.

(** X3. A non-empty list of models nested in a value is a newline followed
    by exactly what [serialize] returns for that list at the same level; as a
    model field it is the field name alone on its line, then the tabular
    block one level deeper. *)
Theorem nested_list_is_top_level_tabular (items : list value) (name : string)
  (indent_level : nat) (tabular deeper : string) :
  items <> [] ->
  serialize (VList items) indent_level = Return tabular ->
  serialize (VList items) (indent_level + 1) = Return deeper ->
  _serialize_value (VList items) indent_level = nl ++ tabular
  /\ _serialize_object [(name, VList items)] indent_level
     = repeat "  " indent_level ++ name ++ ":" ++ nl ++ deeper.
Proof.
  intros Hne Htab Hdeep. cbn [serialize] in Htab, Hdeep.
  destruct (forallb is_model items) eqn:Hall; [|discriminate Htab].
  injection Htab as <-. injection Hdeep as <-. split.
  - now apply _serialize_value_list_of_models.
  - rewrite _serialize_object_eq. cbn [map fst snd join String.concat].
    now apply field_line_list_of_models.
Qed.

Lemma nested_list_is_top_level_tabular_witness :
  _serialize_object [("employees", VList [VModel emp1; VModel emp2])] 0
  = repeat "  " 0 ++ "employees" ++ ":" ++ nl
    ++ _serialize_list_of_models [emp1; emp2] 1.
Proof.
  apply (nested_list_is_top_level_tabular [VModel emp1; VModel emp2] "employees" 0
           (_serialize_list_of_models [emp1; emp2] 0)
           (_serialize_list_of_models [emp1; emp2] 1)).
  - discriminate.
  - reflexivity.
  - reflexivity.
Defined.

(** X4. Empty containers: a model without fields and a dict without items
    encode to the empty text at every level, so [model_dump_toon] returns the
    empty text for such a model, and a field holding an empty dict or an
    empty model is its name, a colon and one space. *)
Theorem empty_model_and_dict (name : string) (indent_level : nat) :
  _serialize_object [] indent_level = EmptyString
  /\ model_dump_toon (VModel []) = Return EmptyString
  /\ ToonMixin.model_dump_toon (VModel []) = Return EmptyString
  /\ _serialize_value (VDict []) indent_level = EmptyString
  /\ _serialize_object [(name, VDict [])] indent_level
     = repeat "  " indent_level ++ name ++ ": "
  /\ _serialize_object [(name, VModel [])] indent_level
     = repeat "  " indent_level ++ name ++ ": ".
Proof.
  split; [reflexivity|]. split; [reflexivity|]. split; [reflexivity|].
  split; [reflexivity|].
  split; rewrite _serialize_object_eq; reflexivity.
Qed.

(** X5. Encoding a non-empty list of models one level deeper puts two more
    spaces in front of the header and of every row and changes nothing
    else: the cells never see the level. *)
Theorem tabular_one_level_deeper (first_model : model) (rest : list model)
  (indent_level : nat) :
  let models := first_model :: rest in
  _serialize_list_of_models models indent_level
  = join nl (tabular_entries models indent_level)
  /\ _serialize_list_of_models models (S indent_level)
     = join nl (map (append "  ") (tabular_entries models indent_level)).
Proof.
  intros models. subst models. split.
  - apply _serialize_list_of_models_cons.
  - rewrite _serialize_list_of_models_cons. cbn [tabular_entries map].
    rewrite map_map. unfold header_line, row_of. cbn [repeat].
    rewrite !app_assoc_str. reflexivity.
Qed.

(** ** Further properties of the string escaper *)

Lemma replace_head_not_old (old n1 : ascii) (tail s rest : string) :
  Ascii.eqb n1 old = false ->
  replace old (String n1 tail) s <> String old rest.
Proof.
  intros Hn1. destruct s as [|a s]; cbn [replace]; [discriminate|].
  destruct (Ascii.eqb a old) eqn:Ha.
  - cbn [append]. intros E. injection E as E _. subst n1.
    now rewrite Ascii.eqb_refl in Hn1.
  - intros E. injection E as E _. subst a. now rewrite Ascii.eqb_refl in Ha.
Qed.

(** Replacing a character by two characters, of which the first or else the
    second is the character itself, loses nothing. *)
Lemma replace_two_injective (old n1 n2 : ascii) (s1 s2 : string) :
  n1 = old \/ n2 = old ->
  replace old (String n1 (String n2 EmptyString)) s1
  = replace old (String n1 (String n2 EmptyString)) s2 ->
  s1 = s2.
Proof.
  intros Hnew. revert s2.
  induction s1 as [|a r1 IH]; intros [|b r2]; cbn [replace]; intros E.
  - reflexivity.
  - destruct (Ascii.eqb b old); discriminate E.
  - destruct (Ascii.eqb a old); discriminate E.
  - destruct (Ascii.eqb a old) eqn:Ha, (Ascii.eqb b old) eqn:Hb; cbn [append] in E.
    + apply Ascii.eqb_eq in Ha, Hb. subst a b. injection E as E. f_equal.
      now apply IH.
    + exfalso. injection E as E1 E2. subst b.
      destruct (Ascii.eqb n1 old) eqn:Hn1; [congruence|].
      destruct Hnew as [->| ->]; [now rewrite Ascii.eqb_refl in Hn1|].
      exact (replace_head_not_old _ _ _ r2 _ Hn1 (eq_sym E2)).
    + exfalso. injection E as E1 E2. subst a.
      destruct (Ascii.eqb n1 old) eqn:Hn1; [congruence|].
      destruct Hnew as [->| ->]; [now rewrite Ascii.eqb_refl in Hn1|].
      exact (replace_head_not_old _ _ _ r1 _ Hn1 E2).
    + injection E as E1 E2. subst b. f_equal. now apply IH.
Qed.

Lemma escaped_injective (s1 s2 : string) : escaped s1 = escaped s2 -> s1 = s2.
Proof.
  unfold escaped. intros E.
  apply (replace_two_injective dquote_char backslash_char dquote_char) in E;
    [|now right].
  apply (replace_two_injective backslash_char backslash_char backslash_char) in E;
    [exact E|now left].
Qed.

Lemma append_inv_tail (a b c : string) : a ++ c = b ++ c -> a = b.
Proof.
  revert b. induction a as [|x a IH]; intros [|y b] E; cbn [append] in E.
  - reflexivity.
  - exfalso. apply (f_equal String.length) in E.
    cbn [String.length] in E. rewrite length_app in E. lia.
  - exfalso. apply (f_equal String.length) in E.
    cbn [String.length] in E. rewrite length_app in E. lia.
  - injection E as -> E. f_equal. now apply IH.
Qed.

(** X6. Quoting loses nothing: two texts that both take the quoting path and
    have the same encoding are the same text. *)
Theorem quoted_encoding_injective (s1 s2 : string) (L1 L2 : nat) :
  needs_quote s1 = true -> needs_quote s2 = true ->
  _serialize_value (VStr s1) L1 = _serialize_value (VStr s2) L2 ->
  s1 = s2.
Proof.
  intros H1 H2. rewrite !_serialize_value_str. unfold serialize_str.
  rewrite H1, H2. intros E. unfold dquote at 1 3 in E. cbn [append] in E.
  injection E as E. apply append_inv_tail in E. now apply escaped_injective.
Qed.

Lemma quoted_encoding_injective_witness :
  "a,b" = "a,b".
Proof.
  apply (quoted_encoding_injective "a,b" "a,b" 0 3); reflexivity.
Defined.

(** X7. Over all texts the encoding is ambiguous: a text that is quoted only
    for its surrounding whitespace is encoded like the raw text that
    already carries those quotes. *)
Theorem text_encoding_not_injective :
  exists s1 s2 : string,
    s1 <> s2
    /\ needs_quote s1 = true /\ needs_quote s2 = false
    /\ forall L, _serialize_value (VStr s1) L = _serialize_value (VStr s2) L.
Proof.
  exists " a", (dquote ++ " a" ++ dquote).
  split; [discriminate|]. split; [reflexivity|]. split; reflexivity.
Qed.

Lemma length_replace_two (old n1 n2 : ascii) (s : string) :
  String.length (replace old (String n1 (String n2 EmptyString)) s)
  = String.length s + count old s.
Proof.
  induction s as [|a s IH]; cbn [replace count String.length]; [reflexivity|].
  destruct (Ascii.eqb a old); cbn [append String.length]; rewrite IH; lia.
Qed.

(** X8. The size of an encoded text: a text emitted raw keeps its length; a
    quoted text grows by the two quotes and by one character for each
    backslash and each double quote it holds. *)
Theorem encoded_text_length (s : string) (indent_level : nat) :
  String.length (_serialize_value (VStr s) indent_level)
  = if needs_quote s
    then String.length s + count backslash_char s + count dquote_char s + 2
    else String.length s.
Proof.
  rewrite _serialize_value_str. unfold serialize_str.
  destruct (needs_quote s); [|reflexivity].
  rewrite !length_app. unfold escaped.
  change (backslash ++ dquote)
    with (String backslash_char (String dquote_char EmptyString)).
  change (backslash ++ backslash)
    with (String backslash_char (String backslash_char EmptyString)).
  rewrite !length_replace_two, count_replace by reflexivity.
  cbn [dquote String.length]. lia.
Qed.

(** ** Counting separators *)

Lemma count_join (c : ascii) (sep : string) (ls : list string) :
  count c sep = 1 ->
  count c (join sep ls) = list_sum (map (count c) ls) + (List.length ls - 1).
Proof.
  intros Hsep. induction ls as [|a rest IH]; [reflexivity|].
  destruct rest as [|b rest].
  - cbn. lia.
  - change (join sep (a :: b :: rest)) with (a ++ sep ++ join sep (b :: rest)).
    rewrite !count_app, Hsep, IH. unfold list_sum.
    cbn [map fold_right List.length]. lia.
Qed.

Lemma count_repeat_spaces (c : ascii) (n : nat) :
  Ascii.eqb space_char c = false -> count c (repeat "  " n) = 0.
Proof.
  intros Hc. apply contains_false_count. now apply contains_repeat_spaces.
Qed.

Lemma serialize_str_count (c : ascii) (s : string) :
  Ascii.eqb backslash_char c = false -> Ascii.eqb dquote_char c = false ->
  count c (serialize_str s) = count c s.
Proof.
  intros Hb Hq. unfold serialize_str. destruct (needs_quote s); [|reflexivity].
  rewrite !count_app, escaped_count by assumption.
  cbn [dquote count]. rewrite Hq. lia.
Qed.

(** X9. The commas of a row: one between neighbouring cells plus those inside
    the cells, and a text cell holds exactly the commas of its text. A row
    of k cells therefore splits into k parts on commas only when no cell
    holds a comma. *)
Theorem row_comma_count (fields : list string) (obj : model) (indent_level : nat) :
  count comma_char (row_of (repeat "  " indent_level) fields obj)
  = list_sum (map (fun field =>
       count comma_char (_serialize_value (dict_get (model_dump obj) field) 0))
     fields)
    + (List.length fields - 1)
  /\ (forall s L, count comma_char (_serialize_value (VStr s) L)
                  = count comma_char s).
Proof.
  split.
  - unfold row_of.
    rewrite !count_app, count_repeat_spaces, count_join by reflexivity.
    rewrite map_map, length_map. reflexivity.
  - intros s L. rewrite _serialize_value_str.
    now apply serialize_str_count.
Qed.

Lemma list_sum_succ {A : Type} (f : A -> nat) (xs : list A) :
  list_sum (map (fun x => 1 + f x) xs) = List.length xs + list_sum (map f xs).
Proof.
  unfold list_sum.
  induction xs as [|x rest IH]; cbn [map fold_right List.length]; [reflexivity|].
  rewrite IH. lia.
Qed.

Lemma count_nl_field_line (indent_level : nat) (name child : string) :
  contains nl_char name = false ->
  count nl_char (field_line (repeat "  " indent_level) name child)
  = count nl_char child.
Proof.
  intros Hname. apply contains_false_count in Hname.
  unfold field_line. destruct (contains nl_char child);
    rewrite !count_app, count_repeat_spaces, Hname by reflexivity; reflexivity.
Qed.

(** X10. The physical lines of the object format: each field contributes one
    line plus one for every newline in its encoded child, so a model of n
    fields with single-line children is exactly n lines. *)
Theorem object_line_count (obj : model) (indent_level : nat) :
  obj <> [] ->
  Forall (fun kv => contains nl_char (fst kv) = false) obj ->
  List.length (lines (_serialize_object obj indent_level))
  = list_sum (map (fun kv =>
       1 + count nl_char (_serialize_value (snd kv) (indent_level + 1))) obj).
Proof.
  intros Hne Hnames.
  rewrite lines_length, _serialize_object_eq, count_join by reflexivity.
  rewrite map_map, length_map, list_sum_succ.
  rewrite (map_ext_in _ (fun kv =>
             count nl_char (_serialize_value (snd kv) (indent_level + 1)))).
  - destruct obj; [congruence|]. cbn [List.length]. lia.
  - intros kv Hin. rewrite Forall_forall in Hnames.
    apply count_nl_field_line. exact (Hnames kv Hin).
Qed.

Lemma object_line_count_witness :
  List.length (lines (_serialize_object
     [("id", VInt 1); ("note", VStr ("a" ++ nl ++ "b"))] 0))
  = list_sum (map (fun kv => 1 + count nl_char (_serialize_value (snd kv) (0 + 1)))
       [("id", VInt 1); ("note", VStr ("a" ++ nl ++ "b"))]).
Proof.
  apply (object_line_count [("id", VInt 1); ("note", VStr ("a" ++ nl ++ "b"))] 0).
  - discriminate.
  - repeat constructor.
Defined.

Lemma length_flat_map_ge {A : Type} (g : A -> list string) (xs : list A) :
  (forall x, 1 <= List.length (g x)) ->
  List.length xs <= List.length (flat_map g xs).
Proof.
  intros Hg. induction xs as [|x rest IH]; cbn [flat_map List.length]; [lia|].
  rewrite List.length_app. specialize (Hg x). lia.
Qed.

Lemma contains_nl_join (ls : list string) :
  2 <= List.length ls -> contains nl_char (join nl ls) = true.
Proof.
  intros Hlen. apply contains_count. rewrite count_join by reflexivity. lia.
Qed.

Lemma contains_nl_object (obj : model) (L : nat) :
  2 <= List.length obj -> contains nl_char (_serialize_object obj L) = true.
Proof.
  intros Hlen. rewrite _serialize_object_eq. apply contains_nl_join.
  now rewrite length_map.
Qed.

Lemma contains_nl_dict (items : list (string * value)) (L : nat) :
  2 <= List.length items ->
  contains nl_char (_serialize_value (VDict items) L) = true.
Proof.
  intros Hlen. rewrite _serialize_value_dict. apply contains_nl_join.
  etransitivity; [exact Hlen|]. apply length_flat_map_ge.
  intros kv. unfold dict_item_lines.
  destruct (contains nl_char _); cbn [List.length]; lia.
Qed.

(** X11. A model or a dict with two or more entries is always multi-line, at
    every level; in a tabular row, where a nested model is first dumped to
    a dict, its cell holds a newline as well. *)
Theorem two_entries_span_lines (entries : list (string * value)) (L : nat) :
  2 <= List.length entries ->
  contains nl_char (_serialize_value (VModel entries) L) = true
  /\ contains nl_char (_serialize_value (VDict entries) L) = true
  /\ contains nl_char (_serialize_value (dump_value (VModel entries)) 0) = true.
Proof.
  intros Hlen. split; [|split].
  - rewrite _serialize_value_model. now apply contains_nl_object.
  - now apply contains_nl_dict.
  - cbn [dump_value]. apply contains_nl_dict. now rewrite length_map.
Qed.

Lemma two_entries_span_lines_witness :
  contains nl_char (_serialize_value (dump_value (VModel emp1)) 0) = true.
Proof.
  apply (two_entries_span_lines emp1 0). cbn. lia.
Defined.

Lemma field_line_prefix (indent name child : string) :
  exists tail, field_line indent name child = indent ++ name ++ ":" ++ tail.
Proof.
  unfold field_line. destruct (contains nl_char child).
  - now exists child.
  - now exists (" " ++ child).
Qed.

(** X12. As the record encoder stands, a field that holds a nested model of
    two or more fields gets no line of its own: the first nested entry, with
    the indentation of the deeper level, follows the colon on the same
    line. *)
Theorem nested_model_starts_on_field_line (name first_name : string)
  (first_value : value) (more : model) (indent_level : nat) :
  more <> [] ->
  exists tail,
    _serialize_object [(name, VModel ((first_name, first_value) :: more))]
      indent_level
    = repeat "  " indent_level ++ name ++ ":"
      ++ repeat "  " (indent_level + 1) ++ first_name ++ ":" ++ tail.
Proof.
  intros Hmore. destruct more as [|second more]; [congruence|].
  set (inner := (first_name, first_value) :: second :: more).
  rewrite _serialize_object_eq. cbn [map fst snd join String.concat].
  rewrite _serialize_value_model.
  rewrite field_line_multi by (apply contains_nl_object; cbn; lia).
  rewrite (_serialize_object_eq inner). subst inner. cbn [map fst snd].
  destruct (field_line_prefix (repeat "  " (indent_level + 1)) first_name
              (_serialize_value first_value (indent_level + 1 + 1))) as [t Ht].
  rewrite Ht.
  match goal with
  | |- context [join nl (?e :: ?f :: ?r)] =>
      change (join nl (e :: f :: r)) with (e ++ nl ++ join nl (f :: r))
  end.
  eexists. rewrite !app_assoc_str. reflexivity.
Qed.

Lemma nested_model_starts_on_field_line_witness :
  exists tail,
    _serialize_object [("boss", VModel (("id", VInt 1) :: [("name", VStr "Alice")]))] 0
    = repeat "  " 0 ++ "boss" ++ ":" ++ repeat "  " (0 + 1) ++ "id" ++ ":" ++ tail.
Proof.
  apply (nested_model_starts_on_field_line "boss" "id" (VInt 1)
           [("name", VStr "Alice")] 0).
  discriminate.
Defined.

(** ** The public wrappers and the prompt builder *)

Lemma lines_aux_break (cur a b : string) :
  lines_aux cur (a ++ String nl_char b) = (lines_aux cur a ++ lines b)%list.
Proof.
  revert cur. induction a as [|x a IH]; intros cur; cbn [append lines_aux].
  - now rewrite Ascii.eqb_refl.
  - destruct (Ascii.eqb x nl_char); [cbn [List.app]; f_equal|]; apply IH.
Qed.

(** The lines of two texts joined by a newline are the lines of the first
    followed by the lines of the second. *)
Lemma lines_break (a b : string) : lines (a ++ nl ++ b) = (lines a ++ lines b)%list.
Proof. apply lines_aux_break. Qed.

(** X13. The first physical line of the tabular format is always the
    header, whatever the cells hold, as long as the field names of the first
    model hold no newline: count and columns can be read off the first
    line. *)
Theorem tabular_first_line_is_header (first_model : model) (rest : list model) :
  let models := first_model :: rest in
  let fields := map fst first_model in
  Forall (fun f => contains nl_char f = false) fields ->
  exists text,
    models_dump_toon (VList (map VModel models)) = Return text
    /\ hd EmptyString (lines text)
       = "[" ++ str_len models ++ "]{" ++ join "," fields ++ "}:".
Proof.
  intros models fields Hnames. eexists. split.
  - unfold models_dump_toon. cbn [serialize].
    rewrite forallb_is_model_map, models_of_map. reflexivity.
  - subst models. rewrite _serialize_list_of_models_cons, keys_model_dump.
    fold fields. cbn [map].
    match goal with
    | |- context [join nl (?h :: ?r :: ?rs)] =>
        change (join nl (h :: r :: rs)) with (h ++ nl ++ join nl (r :: rs))
    end.
    rewrite lines_break, lines_single by (now apply contains_nl_header).
    reflexivity.
Qed.

Lemma tabular_first_line_is_header_witness :
  exists text,
    models_dump_toon
      (VList (map VModel ([("note", VStr ("a" ++ nl ++ "b"))] :: [emp1])))
    = Return text
    /\ hd EmptyString (lines text)
       = "[" ++ str_len ([("note", VStr ("a" ++ nl ++ "b"))] :: [emp1]) ++ "]{"
         ++ join "," (map fst [("note", VStr ("a" ++ nl ++ "b"))]) ++ "}:".
Proof.
  apply (tabular_first_line_is_header [("note", VStr ("a" ++ nl ++ "b"))] [emp1]).
  repeat constructor.
Defined.

(** X14. [create_prompt_toon] on a list of models always returns, and the
    prompt is, line by line: the fixed introduction, an empty line, the data
    label, the lines of the tabular text unchanged, an empty line, the
    question after its label, an empty line and the fixed closing line; on a
    list with an element that is no model the serializer's error
    propagates. *)
Theorem prompt_layout (question : string) :
  (forall models : list model,
     exists prompt,
       LlmIntegration.create_prompt_toon (VList (map VModel models)) question
       = Return prompt
       /\ lines prompt
          = ([LlmIntegration.prompt_intro; EmptyString;
              LlmIntegration.prompt_data_label]
             ++ lines (_serialize_list_of_models models 0)
             ++ [EmptyString]
             ++ lines ("Question: " ++ question)
             ++ [EmptyString; LlmIntegration.prompt_outro])%list)
  /\ (forall items x,
        In x items -> is_model x = false ->
        LlmIntegration.create_prompt_toon (VList items) question
        = Raise (ValueError "All items in list must be Pydantic models")).
Proof.
  split.
  - intros models. eexists. split.
    + unfold LlmIntegration.create_prompt_toon, ToonMixin.model_dump_toon_list.
      cbn [serialize]. rewrite forallb_is_model_map, models_of_map. reflexivity.
    + set (toon := _serialize_list_of_models models 0).
      rewrite lines_break.
      change (nl ++ LlmIntegration.prompt_data_label ++ ?x)
        with (EmptyString ++ nl ++ LlmIntegration.prompt_data_label ++ x).
      rewrite lines_break, lines_break, lines_break.
      change (nl ++ "Question: " ++ ?x)
        with (EmptyString ++ nl ++ "Question: " ++ x).
      rewrite lines_break.
      change ("Question: " ++ question ++ nl ++ nl ++ LlmIntegration.prompt_outro)
        with ("Question: " ++ (question ++ nl ++ nl ++ LlmIntegration.prompt_outro)).
      rewrite <- (app_assoc_str "Question: " question), lines_break.
      change (nl ++ LlmIntegration.prompt_outro)
        with (EmptyString ++ nl ++ LlmIntegration.prompt_outro).
      rewrite lines_break. reflexivity.
  - intros items x Hin Hx.
    unfold LlmIntegration.create_prompt_toon, ToonMixin.model_dump_toon_list.
    cbn [serialize].
    assert (H : forallb is_model items = false)
      by (apply forallb_is_model_false; eauto).
    now rewrite H.
Qed.

Lemma prompt_layout_witness :
  LlmIntegration.create_prompt_toon (VList [VModel emp1; VInt 7]) "Who earns most?"
  = Raise (ValueError "All items in list must be Pydantic models").
Proof.
  apply (proj2 (prompt_layout "Who earns most?") [VModel emp1; VInt 7] (VInt 7)).
  - right. left. reflexivity.
  - reflexivity.
Defined.

(** ** Physical lines of blocks in general *)

Lemma lines_join_all (ls : list string) :
  ls <> [] -> lines (join nl ls) = flat_map lines ls.
Proof.
  induction ls as [|a rest IH]; intros Hne; [congruence|].
  destruct rest as [|b rest].
  - cbn [join String.concat flat_map]. now rewrite List.app_nil_r.
  - change (join nl (a :: b :: rest)) with (a ++ nl ++ join nl (b :: rest)).
    rewrite lines_break, IH by discriminate. reflexivity.
Qed.

Lemma lines_aux_head (cur s : string) :
  exists first rest, lines_aux cur s = (cur ++ first) :: rest.
Proof.
  revert cur. induction s as [|x s IH]; intros cur; cbn [lines_aux].
  - exists EmptyString, []. now rewrite app_empty_r.
  - destruct (Ascii.eqb x nl_char).
    + exists EmptyString, (lines_aux EmptyString s). now rewrite app_empty_r.
    + destruct (IH (cur ++ String x EmptyString)) as (first & rest & E).
      exists (String x first), rest. rewrite E, app_assoc_str. reflexivity.
Qed.

(** The first line of a text that starts with a newline-free prefix starts
    with that prefix. *)
Lemma lines_prefix (prefix s : string) :
  contains nl_char prefix = false ->
  exists first rest, lines (prefix ++ s) = (prefix ++ first) :: rest.
Proof.
  intros Hp. unfold lines. rewrite lines_aux_app by exact Hp.
  cbn [append]. apply lines_aux_head.
Qed.

(** X15. The object format, whatever the children hold: the physical lines
    are the lines of the fields, in declared order, and the lines of a
    field open with the indentation of the level, the field name and a
    colon. *)
Theorem object_fields_in_order (obj : model) (indent_level : nat) :
  obj <> [] ->
  Forall (fun kv => contains nl_char (fst kv) = false) obj ->
  lines (_serialize_object obj indent_level)
  = flat_map (fun kv =>
      lines (field_line (repeat "  " indent_level) (fst kv)
               (_serialize_value (snd kv) (indent_level + 1)))) obj
  /\ Forall (fun kv =>
       exists tail rest,
         lines (field_line (repeat "  " indent_level) (fst kv)
                  (_serialize_value (snd kv) (indent_level + 1)))
         = (repeat "  " indent_level ++ fst kv ++ ":" ++ tail) :: rest) obj.
Proof.
  intros Hne Hnames. split.
  - rewrite _serialize_object_eq, lines_join_all, flat_map_concat_map.
    + rewrite map_map, <- flat_map_concat_map. reflexivity.
    + destruct obj; [congruence|discriminate].
  - apply Forall_forall. intros kv Hin. rewrite Forall_forall in Hnames.
    destruct (field_line_prefix (repeat "  " indent_level) (fst kv)
                (_serialize_value (snd kv) (indent_level + 1))) as [t Ht].
    rewrite Ht.
    destruct (lines_prefix (repeat "  " indent_level ++ fst kv ++ ":") t)
      as (first & rest & E).
    { rewrite !contains_app, contains_repeat_spaces, (Hnames kv Hin)
        by reflexivity. reflexivity. }
    rewrite !app_assoc_str in E. exists first, rest. exact E.
Qed.

Lemma object_fields_in_order_witness :
  lines (_serialize_object [("boss", VModel emp1); ("n", VInt 2)] 1)
  = flat_map (fun kv =>
      lines (field_line (repeat "  " 1) (fst kv)
               (_serialize_value (snd kv) (1 + 1))))
      [("boss", VModel emp1); ("n", VInt 2)].
Proof.
  apply (object_fields_in_order [("boss", VModel emp1); ("n", VInt 2)] 1).
  - discriminate.
  - repeat constructor.
Defined.

(** X16. In a mapping block the key of a multi-line child does stand alone:
    the line made of 2*(L+1) spaces, the key and a colon is one of the
    physical lines of the block. *)
Theorem mapping_key_on_own_line (items : list (string * value)) (key : string)
  (child : value) (indent_level : nat) :
  In (key, child) items ->
  contains nl_char key = false ->
  contains nl_char (_serialize_value child (indent_level + 1)) = true ->
  In (repeat "  " (indent_level + 1) ++ key ++ ":")
     (lines (_serialize_value (VDict items) indent_level)).
Proof.
  intros Hin Hkey Hchild.
  assert (Hne : flat_map (fun kv =>
                  dict_item_lines (repeat "  " indent_level) (fst kv)
                    (_serialize_value (snd kv) (indent_level + 1))) items <> []).
  { destruct items as [|kv rest]; [destruct Hin|].
    cbn [flat_map]. unfold dict_item_lines.
    destruct (contains nl_char (_serialize_value (snd kv) (indent_level + 1)));
      cbn [List.app]; discriminate. }
  rewrite _serialize_value_dict, lines_join_all by exact Hne.
  apply in_flat_map.
  exists (repeat "  " indent_level ++ "  " ++ key ++ ":"). split.
  - apply in_flat_map. exists (key, child). split; [exact Hin|].
    cbn [fst snd]. unfold dict_item_lines. rewrite Hchild. now left.
  - rewrite lines_single.
    + left. rewrite <- repeat_succ, app_assoc_str. reflexivity.
    + rewrite !contains_app, contains_repeat_spaces, Hkey by reflexivity.
      reflexivity.
Qed.

Lemma mapping_key_on_own_line_witness :
  In (repeat "  " (0 + 1) ++ "a" ++ ":")
     (lines (_serialize_value
               (VDict [("a", VDict [("x", VInt 1); ("y", VInt 2)])]) 0)).
Proof.
  apply (mapping_key_on_own_line
           [("a", VDict [("x", VInt 1); ("y", VInt 2)])] "a"
           (VDict [("x", VInt 1); ("y", VInt 2)]) 0).
  - left. reflexivity.
  - reflexivity.
  - reflexivity.
Defined.

(** ** Indentation by levels *)






















